(** * Working clones of a mirrored git repository (git/working.go)

    A shallow embedding of [git/working.go] and the properties of its
    transactions: [Clone], [AbsolutePaths], [CommitAndPush], [GetNote],
    [HeadRevision], [MoveTagAndPush], [ChangedFiles], [NoteRevList],
    [Checkout] and [Add].

    The methods of [working.go] compose single git commands that live in
    other files of the package ([config], [fetch], [commit], [push], ...).
    Those commands are the interface of the embedding: a method is a
    program that issues calls of that interface and branches on the
    answers, exactly where the Go code does.  A program is run against an
    arbitrary handler that answers the calls over an arbitrary state; the
    run records the calls and their answers in order.  The
    [context.Context] argument that Go threads through every call is left
    out: no method of this file inspects it. *)

From stdpp Require Import base strings list gmap.

Open Scope string_scope.

(** ** Data of [working.go] *)

(** Modelled from the spec: Go's [error] values that this package
    distinguishes.  [ErrReadOnly] is declared in [working.go].
    [ErrNoChanges] and [PushError] are declared in another file of the
    package: the no-changes condition is a distinguished value, and a push
    failure wraps the underlying push error together with the URL of the
    remote.  [ErrExec] stands for any failure reported by a git command. *)
Inductive error : Type :=
| ErrReadOnly
| ErrNoChanges
| PushError (url : string) (actual : error)
| ErrExec (msg : string).

#[global] Instance error_eq_dec : EqDecision error.
Proof. solve_decision. Defined.

Record Config : Type := mkConfig {
  Branch : string;
  Paths : list string;
  NotesRef : string;
  UserName : string;
  UserEmail : string;
  SigningKey : string;
  SetAuthor : bool;
  SkipMessage : string;
  GitSecret : bool
}.

Record Remote : Type := mkRemote { URL : string }.

(** Modelled from the spec: [Export] is declared in another file; it holds
    the root directory of the local clone and [Dir] reads it. *)
Record Export : Type := mkExport { dir : string }.

Definition Dir (e : Export) : string := dir e.

Record Checkout : Type := mkCheckout {
  export : Export;
  config : Config;
  upstream : Remote;
  realNotesRef : string
}.

Record CommitAction : Type := mkCommitAction {
  caAuthor : string;
  caMessage : string;
  caSigningKey : string
}.

Record TagAction : Type := mkTagAction {
  taTag : string;
  taRevision : string;
  taMessage : string;
  taSigningKey : string
}.

(** The mirror [*Repo]: [working.go] reads its directory [r.dir], takes its
    lock [r.mu] and asks for its origin. *)
Record Repo : Type := mkRepo { repo_dir : string }.

(** A note is an opaque payload ([interface{}] in Go, marshalled by the
    note command); [None] is Go's [nil]. *)
Definition Note : Type := string.

(** ** The calls issued by [working.go] *)

Module Op.

(** One constructor per function or method that [working.go] calls and
    does not define, under the name it has in the source. *)
Inductive t : Type :=
| Origin                                             (* r.Origin() *)
| workingClone (ref : string)                        (* r.workingClone *)
| config (workingDir user email : string)
| getNotesRef (workingDir ref : string)
| RLock                                              (* r.mu.RLock() *)
| RUnlock                                            (* r.mu.RUnlock() *)
| fetch (workingDir upstream refspec : string)
| RemoveAll (path : string)                          (* os.RemoveAll *)
| secretUnseal (workingDir : string)
| add (workingDir path : string)
| check (workingDir : string) (subdirs : list string) (checkFullRepo : bool)
| commit (workingDir : string) (commitAction : CommitAction)
| refRevision (workingDir ref : string)
| addNote (workingDir rev notesRef : string) (note : Note)
| refExists (workingDir ref : string)
| push (workingDir upstream : string) (refs : list string)
| getNote (workingDir notesRef rev : string)
| moveTagAndPush (workingDir upstream : string) (tagAction : TagAction)
| changed (workingDir ref : string) (subPaths : list string)
| noteRevList (workingDir notesRef : string)
| checkout (workingDir ref : string).

(** What each call answers, with Go's result tuples kept as they are: an
    [error] result is [option error] ([None] is [nil]), and a pair of a
    value and an error may carry both. *)
Definition resp (o : t) : Type :=
  match o with
  | Origin => Remote
  | workingClone _ => (string * option error)%type
  | config _ _ _ => option error
  | getNotesRef _ _ => (string * option error)%type
  | RLock => unit
  | RUnlock => unit
  | fetch _ _ _ => option error
  | RemoveAll _ => unit
  | secretUnseal _ => option error
  | add _ _ => option error
  | check _ _ _ => bool
  | commit _ _ => option error
  | refRevision _ _ => (string * option error)%type
  | addNote _ _ _ _ => option error
  | refExists _ _ => (bool * option error)%type
  | push _ _ _ => option error
  | getNote _ _ _ => (bool * option Note * option error)%type
  | moveTagAndPush _ _ _ => option error
  | changed _ _ _ => (list string * option error)%type
  | noteRevList _ _ => (gset string * option error)%type
  | checkout _ _ => option error
  end.

(** The error part of an answer. *)
Definition err (o : t) : resp o → option error :=
  match o with
  | Origin => λ _, None
  | workingClone _ => snd
  | config _ _ _ => id
  | getNotesRef _ _ => snd
  | RLock => λ _, None
  | RUnlock => λ _, None
  | fetch _ _ _ => id
  | RemoveAll _ => λ _, None
  | secretUnseal _ => id
  | add _ _ => id
  | check _ _ _ => λ _, None
  | commit _ _ => id
  | refRevision _ _ => snd
  | addNote _ _ _ _ => id
  | refExists _ _ => snd
  | push _ _ _ => id
  | getNote _ _ _ => snd
  | moveTagAndPush _ _ _ => id
  | changed _ _ _ => snd
  | noteRevList _ _ => snd
  | checkout _ _ => id
  end.

End Op.

(** ** Programs over the calls *)

Inductive prog (A : Type) : Type :=
| Ret (a : A)
| Call (o : Op.t) (k : Op.resp o → prog A).

Arguments Ret {A} a.
Arguments Call {A} o k.

Fixpoint prog_bind {A B : Type} (f : A → prog B) (p : prog A) : prog B :=
  match p with
  | Ret a => f a
  | Call o k => Call o (λ x, prog_bind f (k x))
  end.

#[global] Instance prog_mret : MRet prog := @Ret.
#[global] Instance prog_mbind : MBind prog := @prog_bind.

Definition call (o : Op.t) : prog (Op.resp o) := Call o Ret.

(** One recorded call with its answer. *)
Record event : Type := Ev { ev_op : Op.t; ev_resp : Op.resp ev_op }.

(** A handler answers every call over a state of its own. *)
Definition handler (W : Type) : Type := ∀ o : Op.t, W → Op.resp o * W.

(** The outcome of a run: the result, the final state and the calls made,
    in order. *)
Record outcome (W A : Type) : Type := Out {
  result : A;
  final : W;
  trace : list event
}.

Arguments Out {W A} result final trace.
Arguments result {W A} o.
Arguments final {W A} o.
Arguments trace {W A} o.

Fixpoint run {W A : Type} (h : handler W) (p : prog A) (w : W) : outcome W A :=
  match p with
  | Ret a => Out a w []
  | Call o k =>
      let r := h o w in
      let out := run h (k r.1) r.2 in
      Out (result out) (final out) (Ev o r.1 :: trace out)
  end.

(** ** The methods of [working.go] *)

(** The refspec of the forced tag fetch, a Go raw string: the single
    quotes are part of it. *)
Definition tagsRefspec : string := "'+refs/tags/*:refs/tags/*'".

Definition Clone (r : Repo) (conf : Config) : prog (option Checkout * option error) :=
  upstream ← call Op.Origin;
  '(repoDir, err) ← call (Op.workingClone (Branch conf));
  match err with
  | Some e => mret (None, Some e)
  | None =>
  err ← call (Op.config repoDir (UserName conf) (UserEmail conf));
  match err with
  | Some e => call (Op.RemoveAll repoDir);; mret (None, Some e)
  | None =>
  '(realNotesRef, err) ← call (Op.getNotesRef repoDir (NotesRef conf));
  match err with
  | Some e => call (Op.RemoveAll repoDir);; mret (None, Some e)
  | None =>
  call Op.RLock;;
  err ← call (Op.fetch repoDir (repo_dir r) tagsRefspec);
  match err with
  | Some e =>
      call (Op.RemoveAll repoDir);; call Op.RUnlock;; mret (None, Some e)
  | None =>
  err ← call (Op.fetch repoDir (repo_dir r) (realNotesRef +:+ ":" +:+ realNotesRef));
  match err with
  | Some e =>
      call (Op.RemoveAll repoDir);; call Op.RUnlock;; mret (None, Some e)
  | None =>
  call Op.RUnlock;;
  let done :=
    mret (Some (mkCheckout (mkExport repoDir) conf upstream realNotesRef), None) in
  if GitSecret conf then
    err ← call (Op.secretUnseal repoDir);
    match err with
    | Some e => mret (None, Some e)
    | None => done
    end
  else done
  end end end end end.

(** Go's [for i, p := range src { dst[i] = f(p) }], started at index [i]:
    the slots of [dst] are assigned one at a time, in order. *)
Fixpoint rangeAssign (f : string → string) (i : nat) (src dst : list string)
  : list string :=
  match src with
  | [] => dst
  | p :: rest => rangeAssign f (S i) rest (<[i := f p]> dst)
  end.

(** Go's [make([]string, n, n)]: [n] empty strings. *)
Definition make (n : nat) : list string := replicate n "".

Section Paths.

(** [filepath.Join] of the Go standard library, applied to two elements. *)
Variable filepath_Join : string → string → string.

Definition AbsolutePaths (c : Checkout) : list string :=
  if decide (length (Paths (config c)) = 0) then [Dir (export c)]
  else
    let paths := make (length (Paths (config c))) in
    rangeAssign (filepath_Join (Dir (export c))) 0 (Paths (config c)) paths.

Definition ChangedFiles (c : Checkout) (ref : string)
  : prog (list string * option error) :=
  '(list, err) ← call (Op.changed (Dir (export c)) ref (Paths (config c)));
  let list :=
    match err with
    | None => rangeAssign (filepath_Join (Dir (export c))) 0 list list
    | Some _ => list
    end in
  mret (list, err).

End Paths.

Definition HeadRevision (c : Checkout) : prog (string * option error) :=
  call (Op.refRevision (Dir (export c)) "HEAD").

Definition CommitAndPush (c : Checkout) (commitAction : CommitAction)
    (note : option Note) (addUntracked : bool) : prog (option error) :=
  let afterCommit : prog (option error) :=
    let refs := [Branch (config c)] in
    let pushRefs (refs : list string) : prog (option error) :=
      err ← call (Op.push (Dir (export c)) (URL (upstream c)) refs);
      match err with
      | Some e => mret (Some (PushError (URL (upstream c)) e))
      | None => mret None
      end in
    '(ok, err) ← call (Op.refExists (Dir (export c)) (realNotesRef c));
    if ok : bool then pushRefs (refs ++ [realNotesRef c])%list
    else
      match err with
      | Some e => mret (Some e)
      | None => pushRefs refs
      end in
  let afterAdd : prog (option error) :=
    changes ← call (Op.check (Dir (export c)) (Paths (config c)) addUntracked);
    if negb changes then mret (Some ErrNoChanges)
    else
      let commitAction :=
        mkCommitAction (caAuthor commitAction)
          (caMessage commitAction +:+ SkipMessage (config c))
          (caSigningKey commitAction) in
      let commitAction :=
        if decide (caSigningKey commitAction = "")
        then mkCommitAction (caAuthor commitAction) (caMessage commitAction)
               (SigningKey (config c))
        else commitAction in
      err ← call (Op.commit (Dir (export c)) commitAction);
      match err with
      | Some e => mret (Some e)
      | None =>
          match note with
          | Some n =>
              '(rev, err) ← HeadRevision c;
              match err with
              | Some e => mret (Some e)
              | None =>
                  err ← call (Op.addNote (Dir (export c)) rev
                                (NotesRef (config c)) n);
                  match err with
                  | Some e => mret (Some e)
                  | None => afterCommit
                  end
              end
          | None => afterCommit
          end
      end in
  if addUntracked then
    err ← call (Op.add (Dir (export c)) ".");
    match err with
    | Some e => mret (Some e)
    | None => afterAdd
    end
  else afterAdd.

Definition GetNote (c : Checkout) (rev : string)
  : prog (bool * option Note * option error) :=
  call (Op.getNote (Dir (export c)) (realNotesRef c) rev).

Definition MoveTagAndPush (c : Checkout) (tagAction : TagAction)
  : prog (option error) :=
  let tagAction :=
    if decide (taSigningKey tagAction = "")
    then mkTagAction (taTag tagAction) (taRevision tagAction)
           (taMessage tagAction) (SigningKey (config c))
    else tagAction in
  call (Op.moveTagAndPush (Dir (export c)) (URL (upstream c)) tagAction).

Definition NoteRevList (c : Checkout) : prog (gset string * option error) :=
  call (Op.noteRevList (Dir (export c)) (realNotesRef c)).

(** The method [Checkout] of the type [Checkout]. *)
Definition Checkout_Checkout (c : Checkout) (rev : string) : prog (option error) :=
  call (Op.checkout (Dir (export c)) rev).

Definition Add (c : Checkout) (path : string) : prog (option error) :=
  call (Op.add (Dir (export c)) path).

(** ** Classifying calls *)

#[global] Instance CommitAction_eq_dec : EqDecision CommitAction.
Proof. solve_decision. Defined.

#[global] Instance TagAction_eq_dec : EqDecision TagAction.
Proof. solve_decision. Defined.

#[global] Instance Op_eq_dec : EqDecision Op.t.
Proof. unfold Note. solve_decision. Defined.

(** The calls that write to the clone's refs or to the remote: a commit
    moves the branch, a note write moves the notes ref, a push and a tag
    move write to the remote. *)
Definition writes (o : Op.t) : bool :=
  match o with
  | Op.commit _ _ | Op.addNote _ _ _ _
  | Op.push _ _ _ | Op.moveTagAndPush _ _ _ => true
  | _ => false
  end.

Definition is_push (o : Op.t) : bool :=
  match o with Op.push _ _ _ => true | _ => false end.

Definition is_RemoveAll (o : Op.t) : bool :=
  match o with Op.RemoveAll _ => true | _ => false end.

(** The signing-key rule in the words of the specification: the caller's
    override when one is present (non-empty), the configured key
    otherwise. *)
Definition effectiveSigningKey (override : string) (conf : Config) : string :=
  match override with
  | EmptyString => SigningKey conf
  | String _ _ => override
  end.

(** No call of the handler answers with the read-only error. *)
Definition never_read_only {W : Type} (h : handler W) : Prop :=
  ∀ (o : Op.t) (w : W), Op.err o (h o w).1 ≠ Some ErrReadOnly.

(** ** An executable git, for running the methods on concrete inputs *)

Module Model.

(** Modelled from the spec: the single git commands ([config], [fetch],
    [commit], [push], the note commands, ...), the mirror's
    [workingClone] and [Origin], and [os.RemoveAll] are not part of
    [working.go].  This is a small state for them that follows their
    contracts in the specification: a set of directories on disk, the
    commits made in the clone, notes stored per notes ref and revision,
    the local refs, and what the remote has received. *)
Record World : Type := mkWorld {
  origin : Remote;
  dirs : gset string;
  readers : nat;
  history : list CommitAction;
  dirty : bool;
  changedPaths : list string;
  notes : gmap (string * string) Note;
  refs : gset string;
  pushed : list (string * list string);
  remoteTags : gmap string string
}.

(** Modelled from the spec: [resolveNotesRefName].  A name that is
    already a full notes ref resolves to itself, any other name to the
    ref of that name under [refs/notes/]. *)
Definition notesRefName (ref : string) : string :=
  if String.prefix "refs/notes/" ref then ref else "refs/notes/" +:+ ref.

(** The revision of the tip after [n] commits. *)
Definition revision (n : nat) : string :=
  "rev" +:+ String.concat "" (replicate n "'").

Definition workingDir (w : World) : string :=
  "/tmp/flux-working" +:+ String.concat "" (replicate (size (dirs w)) "+").

(** The answer of a call that fails with [e]: Go's zero values next to
    the error.  A call without an error result answers as it does when it
    succeeds. *)
Definition failed (o : Op.t) (e : error) (w : World) : Op.resp o :=
  match o with
  | Op.Origin => origin w
  | Op.workingClone _ => ("", Some e)
  | Op.config _ _ _ => Some e
  | Op.getNotesRef _ _ => ("", Some e)
  | Op.RLock => tt
  | Op.RUnlock => tt
  | Op.fetch _ _ _ => Some e
  | Op.RemoveAll _ => tt
  | Op.secretUnseal _ => Some e
  | Op.add _ _ => Some e
  | Op.check _ _ _ => dirty w
  | Op.commit _ _ => Some e
  | Op.refRevision _ _ => ("", Some e)
  | Op.addNote _ _ _ _ => Some e
  | Op.refExists _ _ => (false, Some e)
  | Op.push _ _ _ => Some e
  | Op.getNote _ _ _ => (false, None, Some e)
  | Op.moveTagAndPush _ _ _ => Some e
  | Op.changed _ _ _ => ([], Some e)
  | Op.noteRevList _ _ => (∅, Some e)
  | Op.checkout _ _ => Some e
  end.

Definition setDirs (f : gset string → gset string) (w : World) : World :=
  mkWorld (origin w) (f (dirs w)) (readers w) (history w) (dirty w)
    (changedPaths w) (notes w) (refs w) (pushed w) (remoteTags w).

Definition setReaders (n : nat) (w : World) : World :=
  mkWorld (origin w) (dirs w) n (history w) (dirty w)
    (changedPaths w) (notes w) (refs w) (pushed w) (remoteTags w).

Definition doCommit (a : CommitAction) (w : World) : World :=
  mkWorld (origin w) (dirs w) (readers w) (history w ++ [a])%list false
    (changedPaths w) (notes w) (refs w) (pushed w) (remoteTags w).

Definition doAddNote (rev notesRef : string) (n : Note) (w : World) : World :=
  mkWorld (origin w) (dirs w) (readers w) (history w) (dirty w)
    (changedPaths w) (<[(notesRefName notesRef, rev) := n]> (notes w))
    ({[notesRefName notesRef]} ∪ refs w) (pushed w) (remoteTags w).

Definition doPush (url : string) (rs : list string) (w : World) : World :=
  mkWorld (origin w) (dirs w) (readers w) (history w) (dirty w)
    (changedPaths w) (notes w) (refs w) (pushed w ++ [(url, rs)])%list
    (remoteTags w).

Definition doMoveTag (a : TagAction) (w : World) : World :=
  mkWorld (origin w) (dirs w) (readers w) (history w) (dirty w)
    (changedPaths w) (notes w) (refs w) (pushed w)
    (<[taTag a := taRevision a]> (remoteTags w)).

(** The revisions that carry a note under a notes ref. *)
Definition notedRevisions (notesRef : string) (w : World) : gset string :=
  list_to_set
    (omap (λ kv : string * string * Note,
             if decide (kv.1.1 = notesRefName notesRef) then Some kv.1.2
             else None)
          (map_to_list (notes w))).

(** Modelled from the spec: the answer of a call that succeeds, and the
    state it leaves, after the contracts of the low-level operations: the
    initial clone makes a fresh directory, [os.RemoveAll] deletes one, a
    commit adds a revision and leaves nothing to commit, a note is kept
    under the resolved name of its notes ref and its revision, and a push
    and a tag move reach the remote. *)
Definition succeed (o : Op.t) (w : World) : Op.resp o * World :=
  match o with
  | Op.Origin => (origin w, w)
  | Op.workingClone _ =>
      ((workingDir w, None), setDirs (λ ds, {[workingDir w]} ∪ ds) w)
  | Op.config _ _ _ => (None, w)
  | Op.getNotesRef _ ref => ((notesRefName ref, None), w)
  | Op.RLock => (tt, setReaders (S (readers w)) w)
  | Op.RUnlock => (tt, setReaders (pred (readers w)) w)
  | Op.fetch _ _ _ => (None, w)
  | Op.RemoveAll path => (tt, setDirs (λ ds, ds ∖ {[path]}) w)
  | Op.secretUnseal _ => (None, w)
  | Op.add _ _ => (None, w)
  | Op.check _ _ _ => (dirty w, w)
  | Op.commit _ a => (None, doCommit a w)
  | Op.refRevision _ _ => ((revision (length (history w)), None), w)
  | Op.addNote _ rev notesRef n => (None, doAddNote rev notesRef n w)
  | Op.refExists _ ref => ((bool_decide (ref ∈ refs w), None), w)
  | Op.push _ url rs => (None, doPush url rs w)
  | Op.getNote _ notesRef rev =>
      match notes w !! (notesRefName notesRef, rev) with
      | Some n => ((true, Some n, None), w)
      | None => ((false, None, None), w)
      end
  | Op.moveTagAndPush _ _ a => (None, doMoveTag a w)
  | Op.changed _ _ _ => ((changedPaths w, None), w)
  | Op.noteRevList _ notesRef => ((notedRevisions notesRef w, None), w)
  | Op.checkout _ _ => (None, w)
  end.

(** [git faults] answers every call; [faults] makes chosen calls fail. *)
Definition git (faults : Op.t → option error) : handler World :=
  λ o w,
    match faults o with
    | Some e => (failed o e w, w)
    | None => succeed o w
    end.

Definition noFaults : Op.t → option error := λ _, None.

(** A mirror of [git@example.com:flux.git] with nothing cloned yet. *)
Definition start (changes : bool) : World :=
  mkWorld (mkRemote "git@example.com:flux.git") ∅ 0 [] changes [] ∅ ∅ [] ∅.

End Model.

(** ** Concrete inputs *)

Module Sample.

Definition conf : Config :=
  mkConfig "master" ["manifests"; "charts"] "flux" "Flux" "flux@example.com"
    "KEY0" false " [ci skip]" true.

Definition repo : Repo := mkRepo "/var/mirror".

(** The working clone that [Clone] returns for [conf] in [Model.start]. *)
Definition clone : Checkout :=
  mkCheckout (mkExport "/tmp/flux-working") conf
    (mkRemote "git@example.com:flux.git") "refs/notes/flux".

Definition action : CommitAction := mkCommitAction "Alice" "Release 1.2" "".

Definition signedAction : CommitAction :=
  mkCommitAction "Alice" "Release 1.2" "KEY1".

Definition tag : TagAction := mkTagAction "v1" "rev'" "Sync pointer" "".

Definition payload : Note := "{release: 1.2}".

Definition join (a b : string) : string := a +:+ "/" +:+ b.

Definition unsealFails (o : Op.t) : option error :=
  match o with Op.secretUnseal _ => Some (ErrExec "unseal") | _ => None end.

Definition pushFails (o : Op.t) : option error :=
  match o with Op.push _ _ _ => Some (ErrExec "rejected") | _ => None end.

Definition refExistsFails (o : Op.t) : option error :=
  match o with Op.refExists _ _ => Some (ErrExec "show-ref") | _ => None end.

End Sample.

(** ** Counting and classifying calls of a run *)

(** The error that a recorded call answered, if any. *)
Definition answered_error (e : event) : option error :=
  Op.err (ev_op e) (ev_resp e).

(** How many calls of a trace satisfy [p]. *)
Definition calls (p : Op.t → bool) (tr : list event) : nat :=
  length (List.filter (λ e, p (ev_op e)) tr).

Definition is_commit (o : Op.t) : bool :=
  match o with Op.commit _ _ => true | _ => false end.

Definition is_addNote (o : Op.t) : bool :=
  match o with Op.addNote _ _ _ _ => true | _ => false end.

Definition is_refExists (o : Op.t) : bool :=
  match o with Op.refExists _ _ => true | _ => false end.

Definition is_fetch (o : Op.t) : bool :=
  match o with Op.fetch _ _ _ => true | _ => false end.

Definition is_workingClone (o : Op.t) : bool :=
  match o with Op.workingClone _ => true | _ => false end.

Definition is_RLock (o : Op.t) : bool :=
  match o with Op.RLock => true | _ => false end.

Definition is_RUnlock (o : Op.t) : bool :=
  match o with Op.RUnlock => true | _ => false end.

(** The calls [Clone] makes after a failure, before it returns. *)
Definition is_cleanup (o : Op.t) : bool :=
  match o with Op.RemoveAll _ | Op.RUnlock => true | _ => false end.

(** The calls [CommitAndPush] makes after the commit. *)
Definition follows_commit (o : Op.t) : bool :=
  match o with
  | Op.refRevision _ _ | Op.addNote _ _ _ _
  | Op.refExists _ _ | Op.push _ _ _ => true
  | _ => false
  end.

(** ** More concrete inputs *)

Module Faults.

Definition configFails (o : Op.t) : option error :=
  match o with Op.config _ _ _ => Some (ErrExec "config") | _ => None end.

Definition notesFetchFails (o : Op.t) : option error :=
  match o with
  | Op.fetch _ _ refspec =>
      if decide (refspec = tagsRefspec) then None else Some (ErrExec "fetch")
  | _ => None
  end.

Definition addFails (o : Op.t) : option error :=
  match o with Op.add _ _ => Some (ErrExec "add") | _ => None end.

Definition commitFails (o : Op.t) : option error :=
  match o with Op.commit _ _ => Some (ErrExec "commit") | _ => None end.

Definition refRevisionFails (o : Op.t) : option error :=
  match o with Op.refRevision _ _ => Some (ErrExec "rev-parse") | _ => None end.

Definition addNoteFails (o : Op.t) : option error :=
  match o with Op.addNote _ _ _ _ => Some (ErrExec "notes") | _ => None end.

(** A git whose existence check finds the ref and reports an error as
    well; every other call is answered by the executable git. *)
Definition gitNoisyRefExists : handler Model.World :=
  λ o,
    match o as o' return Model.World → Op.resp o' * Model.World with
    | Op.refExists _ _ => λ w, ((true, Some (ErrExec "show-ref")), w)
    | o' => Model.git Model.noFaults o'
    end.

Definition noFilters : Config :=
  mkConfig "master" [] "refs/notes/flux" "Flux" "flux@example.com" "" false
    "" false.

End Faults.

(** ** Reasoning about runs *)

Lemma Ev_inj (o : Op.t) (x y : Op.resp o) : Ev o x = Ev o y → x = y.
Proof.
  intros H.
  assert (existT o x = existT o y :> sigT Op.resp) as H'.
  { change (existT (ev_op (Ev o x)) (ev_resp (Ev o x))
            = existT o y :> sigT Op.resp).
    rewrite H. reflexivity. }
  refine (Eqdep_dec.inj_pair2_eq_dec _ _ _ _ _ _ H').
  intros a b. destruct (decide (a = b)); [left | right]; assumption.
Qed.

(** Unfold the monad operations of a method down to [Call] and [Ret]. *)
Ltac unfold_prog :=
  unfold mbind, prog_mbind, mret, prog_mret, call; cbn [run prog_bind].

(** Case analysis on every component of an answer the code branches on. *)
Ltac split_answer r :=
  lazymatch type of r with
  | (_ * _)%type =>
      let a := fresh "a" in
      let b := fresh "b" in
      destruct r as [a b]; split_answer a; split_answer b
  | option error => destruct r
  | bool => destruct r
  | unit => destruct r
  | _ => idtac
  end.

(** Name the answer of the next call of handler [h] and its next state. *)
Ltac answer h :=
  match goal with
  | |- context [h ?o ?w] =>
      let r := fresh "r" in
      let w' := fresh "w" in
      let E := fresh "E" in
      destruct (h o w) as [r w'] eqn:E; cbn in r;
      split_answer r;
      cbn [fst snd result final trace run prog_bind negb]
  end.

Ltac answers h := repeat (answer h; unfold_prog).

(** Decide an equation between two recorded calls. *)
Ltac ev_eq H :=
  let Ho := fresh "Ho" in
  pose proof (f_equal ev_op H) as Ho; cbn in Ho;
  first
    [ discriminate Ho
    | simplify_eq Ho; intros; subst;
      apply Ev_inj in H; cbn in H; simplify_eq H; intros; subst ].

(** Split a membership in an explicit trace into its cases. *)
Ltac ev_mem H :=
  repeat first
    [ apply elem_of_nil in H; destruct H
    | apply elem_of_cons in H; destruct H as [H | H]; [ev_eq H |] ].

(** ** AbsolutePaths *)

Lemma rangeAssign_map (f : string → string) (src : list string) :
  ∀ (i : nat) (dst : list string),
    (i + length src ≤ length dst)%nat →
    rangeAssign f i src dst
    = (take i dst ++ (f <$> src) ++ drop (i + length src) dst)%list.
Proof.
  induction src as [|p rest IH]; intros i dst Hlen; cbn [rangeAssign length] in *.
  - rewrite Nat.add_0_r. cbn. symmetry. apply take_drop.
  - rewrite IH by (rewrite length_insert; lia).
    assert (i < length dst) as Hi by lia.
    rewrite (take_S_r _ i (f p)) by (apply list_lookup_insert_eq; exact Hi).
    rewrite take_insert_ge by lia.
    rewrite drop_insert_lt by lia.
    rewrite <- app_assoc. cbn.
    replace (S (i + length rest)) with (i + S (length rest)) by lia.
    reflexivity.
Qed.

Lemma rangeAssign_whole (f : string → string) (src dst : list string) :
  length dst = length src → rangeAssign f 0 src dst = f <$> src.
Proof.
  intros Hlen. rewrite rangeAssign_map by (cbn; lia).
  cbn. rewrite <- Hlen, drop_all. apply app_nil_r.
Qed.

(** C8. [AbsolutePaths] always returns a non-empty list: the clone root
    alone when no path filter is configured, and otherwise the configured
    filters, each joined onto the clone root, in their order. *)
Theorem AbsolutePaths_shape (filepath_Join : string → string → string)
    (c : Checkout) :
  AbsolutePaths filepath_Join c ≠ [] ∧
  AbsolutePaths filepath_Join c
  = match Paths (config c) with
    | [] => [Dir (export c)]
    | ps => filepath_Join (Dir (export c)) <$> ps
    end.
Proof.
  unfold AbsolutePaths, make.
  destruct (Paths (config c)) as [|p ps] eqn:HP.
  - cbn. split; [discriminate | reflexivity].
  - rewrite decide_False by (cbn; lia).
    rewrite rangeAssign_whole by (rewrite length_replicate; reflexivity).
    split; [discriminate | reflexivity].
Qed.

(** On success [ChangedFiles] joins every changed file onto the clone
    root; on failure it hands back what [changed] returned. *)
Lemma ChangedFiles_result {W : Type} (h : handler W)
    (filepath_Join : string → string → string) (c : Checkout) (ref : string)
    (w : W) :
  let answer := (h (Op.changed (Dir (export c)) ref (Paths (config c))) w).1 in
  result (run h (ChangedFiles filepath_Join c ref) w)
  = match answer.2 with
    | None => (filepath_Join (Dir (export c)) <$> answer.1, None)
    | Some e => (answer.1, Some e)
    end.
Proof.
  unfold ChangedFiles. unfold_prog.
  destruct (h _ w) as [[l [e|]] w']; cbn; [reflexivity |].
  rewrite rangeAssign_whole by reflexivity. reflexivity.
Qed.

(** ** Finding calls in a trace *)

Lemma trace_split_here (suf : list event) : suf = ([] ++ suf)%list.
Proof. reflexivity. Qed.

Lemma trace_split_later (x : event) (l pre suf : list event) :
  l = (pre ++ suf)%list → x :: l = ((x :: pre) ++ suf)%list.
Proof. intros ->. reflexivity. Qed.

(** Solve [l = ?pre ++ suf] for an explicit trace [l]. *)
Ltac ev_split :=
  solve [repeat first [apply trace_split_here | apply trace_split_later]].

(** Solve [e ∈ l] for an explicit trace [l]. *)
Ltac ev_find :=
  solve [repeat first [apply list_elem_of_here | apply list_elem_of_further]].

(** Case analysis on every answer that a run of [CommitAndPush] can get. *)
Ltac commit_and_push_cases h au note :=
  cbv zeta; unfold CommitAndPush, HeadRevision; unfold_prog;
  destruct au, note; unfold_prog; answers h.

(** ** CommitAndPush: nothing to commit *)

(** C3. When the change check of [CommitAndPush] (over the configured
    paths, or the whole repository when untracked files are added) reports
    no changes, the result is the no-changes error and the only calls made
    are the staging of ["."], if requested, and the check itself: no commit,
    no note write and no push is made, and the state is the one the check
    left. *)
Theorem CommitAndPush_no_changes {W : Type} (h : handler W) (c : Checkout)
    (ca : CommitAction) (note : option Note) (addUntracked : bool) (w : W) :
  let out := run h (CommitAndPush c ca note addUntracked) w in
  let checking := Op.check (Dir (export c)) (Paths (config c)) addUntracked in
  let staging := Op.add (Dir (export c)) "." in
  Ev checking false ∈ trace out →
  result out = Some ErrNoChanges ∧
  trace out
  = ((if addUntracked then [Ev staging None] else []) ++ [Ev checking false])%list ∧
  Forall (λ e, writes (ev_op e) = false) (trace out) ∧
  final out = (h checking (if addUntracked then (h staging w).2 else w)).2.
Proof.
  commit_and_push_cases h addUntracked note; intros H; ev_mem H.
  all: repeat split; repeat constructor.
Qed.

Lemma CommitAndPush_no_changes_witness :
  let out :=
    run (Model.git Model.noFaults)
      (CommitAndPush Sample.clone Sample.action (Some Sample.payload) true)
      (Model.start false) in
  Ev (Op.check "/tmp/flux-working" ["manifests"; "charts"] true) false
    ∈ trace out ∧
  result out = Some ErrNoChanges ∧
  Model.history (final out) = [] ∧ Model.pushed (final out) = [].
Proof.
  assert (Ev (Op.check "/tmp/flux-working" ["manifests"; "charts"] true) false
            ∈ trace (run (Model.git Model.noFaults)
                       (CommitAndPush Sample.clone Sample.action
                          (Some Sample.payload) true)
                       (Model.start false))) as H
    by (vm_compute; ev_find).
  split; [exact H |].
  split; [exact (proj1 (CommitAndPush_no_changes (Model.git Model.noFaults)
                         Sample.clone Sample.action (Some Sample.payload)
                         true (Model.start false) H)) |].
  split; reflexivity.
Defined.

(** ** CommitAndPush: the push *)

(** C4. When the push of [CommitAndPush] fails, the result is the push
    error that wraps the error of the push together with the URL of the
    remote.  The failed push is the last call of the run, so nothing undoes
    the commit and the note write that succeeded before it. *)
Theorem CommitAndPush_push_failure {W : Type} (h : handler W) (c : Checkout)
    (ca : CommitAction) (note : option Note) (addUntracked : bool) (w : W)
    (d u : string) (rs : list string) (e : error) :
  let out := run h (CommitAndPush c ca note addUntracked) w in
  Ev (Op.push d u rs) (Some e) ∈ trace out →
  result out = Some (PushError (URL (upstream c)) e) ∧
  d = Dir (export c) ∧ u = URL (upstream c) ∧
  last (trace out) = Some (Ev (Op.push d u rs) (Some e)) ∧
  (∃ a, Ev (Op.commit (Dir (export c)) a) None ∈ trace out) ∧
  (∀ n, note = Some n →
        ∃ rev, Ev (Op.addNote (Dir (export c)) rev (NotesRef (config c)) n) None
                 ∈ trace out).
Proof.
  commit_and_push_cases h addUntracked note; intros H; ev_mem H.
  all: repeat split; try reflexivity.
  all: try (eexists; ev_find).
  all: intros n' Hn; simplify_eq Hn; intros; subst; eexists; ev_find.
Qed.

Lemma CommitAndPush_push_failure_witness :
  let out :=
    run (Model.git Sample.pushFails)
      (CommitAndPush Sample.clone Sample.action (Some Sample.payload) false)
      (Model.start true) in
  Ev (Op.push "/tmp/flux-working" "git@example.com:flux.git"
        ["master"; "refs/notes/flux"]) (Some (ErrExec "rejected")) ∈ trace out ∧
  result out
  = Some (PushError "git@example.com:flux.git" (ErrExec "rejected")) ∧
  length (Model.history (final out)) = 1 ∧
  Model.notes (final out) !! ("refs/notes/flux", "rev'") = Some Sample.payload.
Proof.
  assert (Ev (Op.push "/tmp/flux-working" "git@example.com:flux.git"
                ["master"; "refs/notes/flux"]) (Some (ErrExec "rejected"))
            ∈ trace (run (Model.git Sample.pushFails)
                       (CommitAndPush Sample.clone Sample.action
                          (Some Sample.payload) false)
                       (Model.start true))) as H
    by (vm_compute; ev_find).
  split; [exact H |].
  split; [exact (proj1 (CommitAndPush_push_failure (Model.git Sample.pushFails)
                         Sample.clone Sample.action (Some Sample.payload)
                         false (Model.start true) _ _ _ _ H)) |].
  split; vm_compute; reflexivity.
Defined.



(** C10. When the existence check of the cached notes ref reports the ref
    as absent together with an error, [CommitAndPush] returns that error as
    it is and pushes nothing, although the commit, and the note write when
    a note was given, have already succeeded. *)
Theorem CommitAndPush_refExists_error {W : Type} (h : handler W)
    (c : Checkout) (ca : CommitAction) (note : option Note)
    (addUntracked : bool) (w : W) (e : error) :
  let out := run h (CommitAndPush c ca note addUntracked) w in
  let existence := Op.refExists (Dir (export c)) (realNotesRef c) in
  Ev existence (false, Some e) ∈ trace out →
  result out = Some e ∧
  Forall (λ ev, is_push (ev_op ev) = false) (trace out) ∧
  last (trace out) = Some (Ev existence (false, Some e)) ∧
  (∃ a, Ev (Op.commit (Dir (export c)) a) None ∈ trace out) ∧
  (∀ n, note = Some n →
        ∃ rev, Ev (Op.addNote (Dir (export c)) rev (NotesRef (config c)) n) None
                 ∈ trace out).
Proof.
  commit_and_push_cases h addUntracked note; intros H; ev_mem H.
  all: repeat split; try reflexivity; try (repeat constructor).
  all: try (eexists; ev_find).
  all: intros n' Hn; simplify_eq Hn; intros; subst; eexists; ev_find.
Qed.

Lemma CommitAndPush_refExists_error_witness :
  let out :=
    run (Model.git Sample.refExistsFails)
      (CommitAndPush Sample.clone Sample.action (Some Sample.payload) false)
      (Model.start true) in
  Ev (Op.refExists "/tmp/flux-working" "refs/notes/flux")
     (false, Some (ErrExec "show-ref")) ∈ trace out ∧
  result out = Some (ErrExec "show-ref") ∧
  length (Model.history (final out)) = 1 ∧
  Model.pushed (final out) = [].
Proof.
  assert (Ev (Op.refExists "/tmp/flux-working" "refs/notes/flux")
             (false, Some (ErrExec "show-ref"))
            ∈ trace (run (Model.git Sample.refExistsFails)
                       (CommitAndPush Sample.clone Sample.action
                          (Some Sample.payload) false)
                       (Model.start true))) as H
    by (vm_compute; ev_find).
  split; [exact H |].
  split; [exact (proj1 (CommitAndPush_refExists_error
                         (Model.git Sample.refExistsFails) Sample.clone
                         Sample.action (Some Sample.payload) false
                         (Model.start true) _ H)) |].
  split; reflexivity.
Defined.

(** ** Signing keys *)

(** C7. The signing key that [CommitAndPush] hands to the commit and that
    [MoveTagAndPush] hands to the tag move is the caller's key when it is
    not empty and the configured key otherwise; the commit otherwise keeps
    the author and carries the message with the configured suffix, and the
    tag move keeps tag, revision and message. *)
Theorem signing_key_precedence {W : Type} (h : handler W) (c : Checkout)
    (w : W) :
  (∀ (ca : CommitAction) (note : option Note) (addUntracked : bool)
     (d : string) (a : CommitAction) (x : option error),
      Ev (Op.commit d a) x ∈ trace (run h (CommitAndPush c ca note addUntracked) w) →
      a = mkCommitAction (caAuthor ca) (caMessage ca +:+ SkipMessage (config c))
            (effectiveSigningKey (caSigningKey ca) (config c))) ∧
  (∀ ta : TagAction,
      ∃ x : option error,
        trace (run h (MoveTagAndPush c ta) w)
        = [Ev (Op.moveTagAndPush (Dir (export c)) (URL (upstream c))
                 (mkTagAction (taTag ta) (taRevision ta) (taMessage ta)
                    (effectiveSigningKey (taSigningKey ta) (config c)))) x] ∧
        result (run h (MoveTagAndPush c ta) w) = x).
Proof.
  split.
  - intros [author message key] note addUntracked d a x.
    destruct key as [|k key]; cbn [caSigningKey caAuthor caMessage effectiveSigningKey].
    + commit_and_push_cases h addUntracked note; intros H; ev_mem H; reflexivity.
    + commit_and_push_cases h addUntracked note; intros H; ev_mem H; reflexivity.
  - intros [t rev message key]. unfold MoveTagAndPush. unfold_prog.
    destruct key as [|k key]; cbn; eexists; split; reflexivity.
Qed.

Lemma signing_key_precedence_witness :
  let out :=
    run (Model.git Model.noFaults)
      (CommitAndPush Sample.clone Sample.signedAction None false)
      (Model.start true) in
  let a := mkCommitAction "Alice" "Release 1.2 [ci skip]" "KEY1" in
  Ev (Op.commit "/tmp/flux-working" a) None ∈ trace out ∧
  a = mkCommitAction "Alice" ("Release 1.2" +:+ " [ci skip]")
        (effectiveSigningKey "KEY1" Sample.conf).
Proof.
  assert (Ev (Op.commit "/tmp/flux-working"
                (mkCommitAction "Alice" "Release 1.2 [ci skip]" "KEY1")) None
            ∈ trace (run (Model.git Model.noFaults)
                       (CommitAndPush Sample.clone Sample.signedAction None false)
                       (Model.start true))) as H
    by (vm_compute; ev_find).
  split; [exact H |].
  exact (proj1 (signing_key_precedence (Model.git Model.noFaults) Sample.clone
                  (Model.start true))
           Sample.signedAction None false _ _ _ H).
Defined.

(** ** The read-only error *)

(** A result that is an answer of the handler is not the read-only error. *)
Ltac not_read_only Hh :=
  cbn [fst snd];
  first
    [ discriminate
    | match goal with
      | E : _ ?o ?w = _ |- _ =>
          let X := fresh "X" in
          pose proof (Hh o w) as X; rewrite E in X; exact X
      end ].

(** The result is the error part of the answer of a single call. *)
Ltac answered Hh :=
  match goal with
  | |- context [?h ?o ?w] => exact (Hh o w)
  end.

(** C9. No method of [working.go] produces the read-only error: when the
    calls they issue never answer with it, the error returned by [Clone],
    [CommitAndPush], [MoveTagAndPush], [GetNote], [HeadRevision],
    [ChangedFiles], [NoteRevList], [Checkout] and [Add] is never
    [ErrReadOnly]. *)
Theorem read_only_error_never_returned {W : Type} (h : handler W)
    (filepath_Join : string → string → string) (r : Repo) (conf : Config)
    (c : Checkout) (ca : CommitAction) (note : option Note)
    (addUntracked : bool) (ta : TagAction) (rev ref path : string) (w : W) :
  never_read_only h →
  (result (run h (Clone r conf) w)).2 ≠ Some ErrReadOnly ∧
  result (run h (CommitAndPush c ca note addUntracked) w) ≠ Some ErrReadOnly ∧
  result (run h (MoveTagAndPush c ta) w) ≠ Some ErrReadOnly ∧
  (result (run h (GetNote c rev) w)).2 ≠ Some ErrReadOnly ∧
  (result (run h (HeadRevision c) w)).2 ≠ Some ErrReadOnly ∧
  (result (run h (ChangedFiles filepath_Join c ref) w)).2 ≠ Some ErrReadOnly ∧
  (result (run h (NoteRevList c) w)).2 ≠ Some ErrReadOnly ∧
  result (run h (Checkout_Checkout c rev) w) ≠ Some ErrReadOnly ∧
  result (run h (Add c path) w) ≠ Some ErrReadOnly.
Proof.
  intros Hh. repeat split.
  - unfold Clone. unfold_prog. answers h.
    all: destruct (GitSecret conf); unfold_prog; answers h.
    all: not_read_only Hh.
  - commit_and_push_cases h addUntracked note; not_read_only Hh.
  - unfold MoveTagAndPush. unfold_prog. cbn. answered Hh.
  - unfold GetNote. unfold_prog. cbn. answered Hh.
  - unfold HeadRevision. unfold_prog. cbn. answered Hh.
  - unfold ChangedFiles. unfold_prog. answers h; not_read_only Hh.
  - unfold NoteRevList. unfold_prog. cbn. answered Hh.
  - unfold Checkout_Checkout. unfold_prog. cbn. answered Hh.
  - unfold Add. unfold_prog. cbn. answered Hh.
Qed.

Lemma git_never_read_only : never_read_only (Model.git Model.noFaults).
Proof.
  intros o w. destruct o; cbn; try discriminate.
  destruct (Model.notes w !! _); cbn; discriminate.
Qed.

Lemma read_only_error_never_returned_witness :
  never_read_only (Model.git Model.noFaults) ∧
  (result (run (Model.git Model.noFaults) (Clone Sample.repo Sample.conf)
             (Model.start true))).2 ≠ Some ErrReadOnly ∧
  result (run (Model.git Model.noFaults)
            (CommitAndPush Sample.clone Sample.action None false)
            (Model.start false)) ≠ Some ErrReadOnly.
Proof.
  split; [exact git_never_read_only |].
  destruct (read_only_error_never_returned (Model.git Model.noFaults)
              Sample.join Sample.repo Sample.conf Sample.clone Sample.action
              None false Sample.tag "rev'" "HEAD" "manifests"
              (Model.start true) git_never_read_only) as (HClone & _).
  split; [exact HClone |].
  exact (proj1 (proj2 (read_only_error_never_returned
                         (Model.git Model.noFaults) Sample.join Sample.repo
                         Sample.conf Sample.clone Sample.action None false
                         Sample.tag "rev'" "HEAD" "manifests"
                         (Model.start false) git_never_read_only))).
Defined.

(** ** Clone: the order of the fetches *)

Lemma string_length_append (a b : string) :
  String.length (a +:+ b) = String.length a + String.length b.
Proof.
  induction a as [|ch a IH]; [reflexivity |].
  change (S (String.length (a +:+ b)) = S (String.length a + String.length b)).
  rewrite IH. reflexivity.
Qed.

(** The refspec of a notes fetch, [ref:ref], has odd length and the tag
    refspec has even length, so no notes ref makes the two fetches alike. *)
Lemma notes_refspec_not_tags (real : string) :
  real +:+ ":" +:+ real ≠ tagsRefspec.
Proof.
  intros H. apply (f_equal String.length) in H.
  rewrite !string_length_append in H. cbn in H. lia.
Qed.

(** Case analysis on every answer that a run of [Clone] can get. *)
Ltac clone_cases h conf :=
  cbv zeta; unfold Clone; unfold_prog; answers h;
  try (destruct (GitSecret conf) eqn:?; unfold_prog; answers h).

(** Case analysis on a position in an explicit trace. *)
Ltac at_position H :=
  match type of H with
  | _ !! ?j = Some _ =>
      do 10 (try (destruct j as [|j]; [| cbn in H]));
      try discriminate H
  end.

(** C6. In every run of [Clone], a fetch of a notes ref [ref:ref] only
    happens after the forced fetch of all tags, from the same mirror into
    the same directory, has been made and has succeeded. *)
Theorem Clone_fetch_order {W : Type} (h : handler W) (r : Repo)
    (conf : Config) (w : W) (j : nat) (d s real : string) (x : option error) :
  let tr := trace (run h (Clone r conf) w) in
  tr !! j = Some (Ev (Op.fetch d s (real +:+ ":" +:+ real)) x) →
  ∃ i : nat, i < j ∧ tr !! i = Some (Ev (Op.fetch d s tagsRefspec) None).
Proof.
  clone_cases h conf; intros H; at_position H.
  all: cbn in H; apply (inj Some) in H.
  all: pose proof (f_equal ev_op H) as Ho; cbn in Ho; try discriminate Ho.
  all: simplify_eq Ho; intros; subst.
  all: try (exfalso; eapply notes_refspec_not_tags;
            first [eassumption | symmetry; eassumption]).
  all: exists 5; split; [lia | reflexivity].
Qed.

Lemma Clone_fetch_order_witness :
  let tr :=
    trace (run (Model.git Model.noFaults) (Clone Sample.repo Sample.conf)
             (Model.start true)) in
  tr !! 6
  = Some (Ev (Op.fetch "/tmp/flux-working" "/var/mirror"
                ("refs/notes/flux" +:+ ":" +:+ "refs/notes/flux")) None) ∧
  ∃ i : nat, i < 6 ∧
    tr !! i
    = Some (Ev (Op.fetch "/tmp/flux-working" "/var/mirror" tagsRefspec) None).
Proof.
  split; [reflexivity |].
  apply (Clone_fetch_order (Model.git Model.noFaults) Sample.repo Sample.conf
           (Model.start true) 6 "/tmp/flux-working" "/var/mirror"
           "refs/notes/flux" None).
  reflexivity.
Defined.

(** ** Clone: cleaning up after a failure *)

(** What [Clone] does on each failure.  Either the initial clone failed and
    nothing else was called; or the directory that the initial clone made
    is removed; or unsealing the secrets failed, which is the last call of
    the run, and nothing is removed. *)
Lemma Clone_failure_cases {W : Type} (h : handler W) (r : Repo)
    (conf : Config) (w : W) (e : error) :
  let out := run h (Clone r conf) w in
  (result out).2 = Some e →
  (result out).1 = None ∧
  ((∃ (up : Remote) (d : string),
       trace out = [Ev Op.Origin up; Ev (Op.workingClone (Branch conf)) (d, Some e)])
   ∨ (∃ d : string,
         Ev (Op.workingClone (Branch conf)) (d, None) ∈ trace out ∧
         Ev (Op.RemoveAll d) () ∈ trace out)
   ∨ (∃ d : string,
         Ev (Op.workingClone (Branch conf)) (d, None) ∈ trace out ∧
         last (trace out) = Some (Ev (Op.secretUnseal d) (Some e)) ∧
         Forall (λ ev, is_RemoveAll (ev_op ev) = false) (trace out))).
Proof.
  clone_cases h conf; cbn [fst snd]; intros H; try discriminate H.
  all: simplify_eq H; intros; subst; split; [reflexivity |].
  all: first
         [ left; eexists _, _; reflexivity
         | right; left; eexists; split; ev_find
         | right; right; eexists; split; [ev_find |];
           split; [reflexivity | repeat constructor] ].
Qed.

(** A failure of the unsealing reaches the caller with the directory of
    the clone still in place: no call of the run removes it. *)
Lemma Clone_unseal_failure_no_cleanup {W : Type} (h : handler W) (r : Repo)
    (conf : Config) (w : W) (d : string) (e : error) :
  let out := run h (Clone r conf) w in
  Ev (Op.secretUnseal d) (Some e) ∈ trace out →
  result out = (None, Some e) ∧
  Ev (Op.workingClone (Branch conf)) (d, None) ∈ trace out ∧
  Forall (λ ev, is_RemoveAll (ev_op ev) = false) (trace out).
Proof.
  clone_cases h conf; intros H; ev_mem H.
  split; [reflexivity |]. split; [ev_find | repeat constructor].
Qed.

(** A successful [Clone] went through every step, in the order of the
    source, and returns the directory of the initial clone, the
    configuration given, the origin of the mirror and the notes ref that
    was resolved and fetched. *)
Lemma Clone_success {W : Type} (h : handler W) (r : Repo) (conf : Config)
    (w : W) (c : Checkout) :
  let out := run h (Clone r conf) w in
  (result out).1 = Some c →
  (result out).2 = None ∧
  config c = conf ∧
  ∃ post : list event,
    trace out
    = ([Ev Op.Origin (upstream c);
        Ev (Op.workingClone (Branch conf)) (Dir (export c), None);
        Ev (Op.config (Dir (export c)) (UserName conf) (UserEmail conf)) None;
        Ev (Op.getNotesRef (Dir (export c)) (NotesRef conf)) (realNotesRef c, None);
        Ev Op.RLock ();
        Ev (Op.fetch (Dir (export c)) (repo_dir r) tagsRefspec) None;
        Ev (Op.fetch (Dir (export c)) (repo_dir r)
              (realNotesRef c +:+ ":" +:+ realNotesRef c)) None;
        Ev Op.RUnlock ()] ++ post)%list ∧
    post = if GitSecret conf
           then [Ev (Op.secretUnseal (Dir (export c))) None] else [].
Proof.
  clone_cases h conf; cbn [fst snd]; intros H; try discriminate H.
  all: simplify_eq H; intros; subst; cbn.
  all: split; [reflexivity |]; split; [reflexivity |].
  all: eexists; split; [| reflexivity].
  all: reflexivity.
Qed.

(** C1. [Clone] of a configuration that asks for unsealing, run where
    every step succeeds but the unsealing: the error is returned, no call
    removes the directory of the clone, and the directory is still there. *)
Theorem Clone_unseal_failure_leaves_directory :
  let out :=
    run (Model.git Sample.unsealFails) (Clone Sample.repo Sample.conf)
      (Model.start true) in
  result out = (None, Some (ErrExec "unseal")) ∧
  Ev (Op.workingClone "master") ("/tmp/flux-working", None) ∈ trace out ∧
  last (trace out)
  = Some (Ev (Op.secretUnseal "/tmp/flux-working") (Some (ErrExec "unseal"))) ∧
  Forall (λ ev, is_RemoveAll (ev_op ev) = false) (trace out) ∧
  "/tmp/flux-working" ∈ Model.dirs (final out).
Proof.
  cbv zeta. split; [reflexivity |].
  split; [vm_compute; ev_find |].
  split; [reflexivity |].
  split; [vm_compute; repeat constructor |].
  apply (bool_decide_unpack _). vm_compute. exact I.
Qed.

(** ** CommitAndPush: the note *)

Section NoteRoundTrip.

Context {W : Type} (h : handler W).

(** How the note commands name a notes ref: [resolve] takes a name as
    given to them to the full ref they work on. *)
Variable resolve : string → string.

(** The contract of [getNotesRef]: it answers the resolved name. *)
Hypothesis getNotesRef_resolves :
  ∀ (d ref : string) (w : W),
    (h (Op.getNotesRef d ref) w).1.2 = None →
    (h (Op.getNotesRef d ref) w).1.1 = resolve ref.

(** A resolved name resolves to itself. *)
Hypothesis resolve_resolved :
  ∀ ref : string, resolve (resolve ref) = resolve ref.

(** The contract of the note commands: a note written to a revision under
    one name is read from that revision under every name of the same
    notes ref. *)
Hypothesis note_written_is_read :
  ∀ (d rev ref ref' : string) (n : Note) (w w' : W),
    h (Op.addNote d rev ref n) w = (None, w') →
    resolve ref' = resolve ref →
    (h (Op.getNote d ref' rev) w').1 = (true, Some n, None).

(** Looking up a ref and pushing leave the local notes as they are. *)
Hypothesis refExists_keeps_notes :
  ∀ (d ref rev d' ref' : string) (w : W),
    (h (Op.getNote d ref rev) (h (Op.refExists d' ref') w).2).1
    = (h (Op.getNote d ref rev) w).1.

Hypothesis push_keeps_notes :
  ∀ (d ref rev d' u : string) (rs : list string) (w : W),
    (h (Op.getNote d ref rev) (h (Op.push d' u rs) w).2).1
    = (h (Op.getNote d ref rev) w).1.

(** Move a note lookup back over the existence check and the push. *)
Ltac before_push :=
  repeat match goal with
    | E : h (Op.push ?d ?u ?rs) ?w0 = (_, ?w1)
      |- context [h (Op.getNote _ _ _) ?w1] =>
        replace w1 with (h (Op.push d u rs) w0).2 by (rewrite E; reflexivity);
        rewrite push_keeps_notes
    | E : h (Op.refExists ?d ?r) ?w0 = (_, ?w1)
      |- context [h (Op.getNote _ _ _) ?w1] =>
        replace w1 with (h (Op.refExists d r) w0).2 by (rewrite E; reflexivity);
        rewrite refExists_keeps_notes
    end.

(** The notes ref that a working clone caches is the resolved name of the
    configured notes ref: [Clone] takes it from [getNotesRef]. *)
Lemma Clone_caches_resolved_notes_ref (r : Repo) (conf : Config) (w : W)
    (c : Checkout) :
  (result (run h (Clone r conf) w)).1 = Some c →
  config c = conf ∧ realNotesRef c = resolve (NotesRef conf).
Proof.
  clone_cases h conf; cbn [fst snd]; intros Hc; try discriminate Hc.
  all: apply (inj Some) in Hc; subst c; cbn [config realNotesRef].
  all: split; [reflexivity |].
  all: match goal with
       | E : h (Op.getNotesRef ?d ?ref) ?w0 = _ |- _ =>
           let X := fresh "X" in
           pose proof (getNotesRef_resolves d ref w0) as X;
           rewrite E in X; exact (X eq_refl)
       end.
Qed.

(** C2. On a working clone that [Clone] returned, a [CommitAndPush] with a
    note that succeeds has made the commit, resolved [HEAD] right after it
    and written the note to that revision, under the configured name of
    the notes ref, whose resolved name is the notes ref that the working
    clone caches.  The note is thereby attached under the cached notes ref
    to the revision of the new commit: it is read from that revision
    under every name of the cached ref, and [GetNote] on that revision
    finds it with the same payload. *)
Theorem CommitAndPush_note_round_trip (r : Repo) (conf : Config) (w0 : W)
    (c : Checkout) (ca : CommitAction) (n : Note) (addUntracked : bool)
    (w : W) :
  (result (run h (Clone r conf) w0)).1 = Some c →
  let out := run h (CommitAndPush c ca (Some n) addUntracked) w in
  result out = None →
  realNotesRef c = resolve (NotesRef (config c)) ∧
  ∃ (rev : string) (a : CommitAction) (pre post : list event),
    trace out
    = (pre ++ [Ev (Op.commit (Dir (export c)) a) None;
               Ev (Op.refRevision (Dir (export c)) "HEAD") (rev, None);
               Ev (Op.addNote (Dir (export c)) rev (NotesRef (config c)) n) None]
           ++ post)%list ∧
    (∀ ref : string,
        resolve ref = realNotesRef c →
        (h (Op.getNote (Dir (export c)) ref rev) (final out)).1
        = (true, Some n, None)) ∧
    result (run h (GetNote c rev) (final out)) = (true, Some n, None).
Proof.
  intros Hc.
  destruct (Clone_caches_resolved_notes_ref r conf w0 c Hc) as [Hconf Hreal].
  rewrite <- Hconf in Hreal. clear Hc Hconf.
  cbv zeta. unfold CommitAndPush, HeadRevision. unfold_prog.
  destruct addUntracked; unfold_prog; answers h.
  all: intros H; try discriminate H.
  all: split; [exact Hreal |].
  all: eexists _, _, _, _; split; [ev_split |].
  all: unfold GetNote; unfold_prog; cbn [result final fst snd].
  all: split; [intros ref Href |].
  all: before_push; eapply note_written_is_read; try eassumption.
  all: rewrite ?Href, Hreal, ?resolve_resolved; reflexivity.
Qed.

End NoteRoundTrip.

(** The executable git keeps the contracts, with its [notesRefName] as
    the resolution. *)
Lemma prefix_append (a b : string) : String.prefix a (a +:+ b) = true.
Proof.
  induction a as [|ch a IH].
  - destruct b; reflexivity.
  - change (String ch a +:+ b) with (String ch (a +:+ b)).
    cbn [String.prefix].
    destruct (Ascii.ascii_dec ch ch); [exact IH | congruence].
Qed.

Lemma notesRefName_resolved (ref : string) :
  Model.notesRefName (Model.notesRefName ref) = Model.notesRefName ref.
Proof.
  unfold Model.notesRefName.
  destruct (String.prefix "refs/notes/" ref) eqn:E.
  - rewrite E. reflexivity.
  - rewrite prefix_append. reflexivity.
Qed.

Lemma git_getNotesRef_resolves (d ref : string) (w : Model.World) :
  (Model.git Model.noFaults (Op.getNotesRef d ref) w).1.2 = None →
  (Model.git Model.noFaults (Op.getNotesRef d ref) w).1.1
  = Model.notesRefName ref.
Proof. reflexivity. Qed.

Lemma git_note_written_is_read (d rev ref ref' : string) (n : Note)
    (w w' : Model.World) :
  Model.git Model.noFaults (Op.addNote d rev ref n) w = (None, w') →
  Model.notesRefName ref' = Model.notesRefName ref →
  (Model.git Model.noFaults (Op.getNote d ref' rev) w').1
  = (true, Some n, None).
Proof.
  intros H Href. cbn in H. apply (f_equal snd) in H. cbn in H. subst w'.
  unfold Model.git, Model.noFaults, Model.succeed, Model.doAddNote.
  cbn [Model.notes]. rewrite Href, lookup_insert_eq. reflexivity.
Qed.

Lemma git_refExists_keeps_notes (d ref rev d' ref' : string)
    (w : Model.World) :
  (Model.git Model.noFaults (Op.getNote d ref rev)
     (Model.git Model.noFaults (Op.refExists d' ref') w).2).1
  = (Model.git Model.noFaults (Op.getNote d ref rev) w).1.
Proof. reflexivity. Qed.

Lemma git_push_keeps_notes (d ref rev d' u : string) (rs : list string)
    (w : Model.World) :
  (Model.git Model.noFaults (Op.getNote d ref rev)
     (Model.git Model.noFaults (Op.push d' u rs) w).2).1
  = (Model.git Model.noFaults (Op.getNote d ref rev) w).1.
Proof.
  unfold Model.git, Model.noFaults. cbn.
  destruct (Model.notes w !! _); reflexivity.
Qed.

Lemma CommitAndPush_note_round_trip_witness :
  let cloned :=
    run (Model.git Model.noFaults) (Clone Sample.repo Sample.conf)
      (Model.start true) in
  let out :=
    run (Model.git Model.noFaults)
      (CommitAndPush Sample.clone Sample.action (Some Sample.payload) false)
      (final cloned) in
  (result cloned).1 = Some Sample.clone ∧
  result out = None ∧
  NotesRef (config Sample.clone) = "flux" ∧
  realNotesRef Sample.clone = "refs/notes/flux" ∧
  ∃ (rev : string) (a : CommitAction) (pre post : list event),
    trace out
    = (pre ++ [Ev (Op.commit "/tmp/flux-working" a) None;
               Ev (Op.refRevision "/tmp/flux-working" "HEAD") (rev, None);
               Ev (Op.addNote "/tmp/flux-working" rev "flux" Sample.payload) None]
           ++ post)%list ∧
    result (run (Model.git Model.noFaults) (GetNote Sample.clone rev)
              (final out))
    = (true, Some Sample.payload, None).
Proof.
  assert ((result (run (Model.git Model.noFaults)
                     (Clone Sample.repo Sample.conf) (Model.start true))).1
          = Some Sample.clone) as Hc by reflexivity.
  assert (result (run (Model.git Model.noFaults)
                    (CommitAndPush Sample.clone Sample.action
                       (Some Sample.payload) false)
                    (final (run (Model.git Model.noFaults)
                              (Clone Sample.repo Sample.conf)
                              (Model.start true)))) = None) as Hok
    by reflexivity.
  split; [exact Hc |]. split; [exact Hok |].
  split; [reflexivity |]. split; [reflexivity |].
  destruct (CommitAndPush_note_round_trip (Model.git Model.noFaults)
              Model.notesRefName git_getNotesRef_resolves
              notesRefName_resolved git_note_written_is_read
              git_refExists_keeps_notes git_push_keeps_notes
              Sample.repo Sample.conf (Model.start true) Sample.clone
              Sample.action Sample.payload false _ Hc Hok)
    as (_ & rev & a & pre & post & Htr & _ & Hget).
  exists rev, a, pre, post. split; [exact Htr | exact Hget].
Defined.

(** ** Clone: further properties *)

Lemma Clone_failure_cases_witness :
  let out :=
    run (Model.git Faults.notesFetchFails) (Clone Sample.repo Sample.conf)
      (Model.start true) in
  (result out).2 = Some (ErrExec "fetch") ∧
  (result out).1 = None ∧
  Ev (Op.RemoveAll "/tmp/flux-working") () ∈ trace out ∧
  "/tmp/flux-working" ∉ Model.dirs (final out).
Proof.
  assert ((result (run (Model.git Faults.notesFetchFails)
                     (Clone Sample.repo Sample.conf) (Model.start true))).2
          = Some (ErrExec "fetch")) as H by reflexivity.
  split; [exact H |].
  split; [exact (proj1 (Clone_failure_cases (Model.git Faults.notesFetchFails)
                          Sample.repo Sample.conf (Model.start true) _ H)) |].
  split; [vm_compute; ev_find |].
  apply (bool_decide_unpack _). vm_compute. exact I.
Defined.

Lemma Clone_success_witness :
  let out :=
    run (Model.git Model.noFaults) (Clone Sample.repo Sample.conf)
      (Model.start true) in
  (result out).1 = Some Sample.clone ∧
  (result out).2 = None ∧ config Sample.clone = Sample.conf.
Proof.
  assert ((result (run (Model.git Model.noFaults)
                     (Clone Sample.repo Sample.conf) (Model.start true))).1
          = Some Sample.clone) as H by reflexivity.
  split; [exact H |].
  destruct (Clone_success (Model.git Model.noFaults) Sample.repo Sample.conf
              (Model.start true) Sample.clone H) as (Herr & Hconf & _).
  split; [exact Herr | exact Hconf].
Defined.

(** Try the positions [0] to [9] of a trace for an existential. *)
Ltac at_some_index tac :=
  first
    [ exists 0; tac | exists 1; tac | exists 2; tac | exists 3; tac
    | exists 4; tac | exists 5; tac | exists 6; tac | exists 7; tac
    | exists 8; tac | exists 9; tac ].

(** The read lock of the mirror is balanced in every run of [Clone],
    failed or not: it is taken at most once and released as often as it is
    taken, and every fetch happens between taking and releasing it. *)
Theorem Clone_lock_balanced {W : Type} (h : handler W) (r : Repo)
    (conf : Config) (w : W) :
  let tr := trace (run h (Clone r conf) w) in
  calls is_RLock tr = calls is_RUnlock tr ∧
  (calls is_RLock tr ≤ 1)%nat ∧
  ∀ (j : nat) (e : event),
    tr !! j = Some e → is_fetch (ev_op e) = true →
    ∃ i k : nat,
      i < j ∧ j < k ∧
      tr !! i = Some (Ev Op.RLock ()) ∧ tr !! k = Some (Ev Op.RUnlock ()).
Proof.
  clone_cases h conf.
  all: split; [reflexivity |]; split; [cbn; lia |].
  all: intros j ev Hj Hf; at_position Hj.
  all: cbn in Hj; apply (inj Some) in Hj; subst ev; cbn in Hf;
       try discriminate Hf.
  all: exists 4;
       at_some_index ltac:(solve [repeat split; first [lia | reflexivity]]).
Qed.

Lemma Clone_lock_balanced_witness :
  let tr :=
    trace (run (Model.git Faults.notesFetchFails)
             (Clone Sample.repo Sample.conf) (Model.start true)) in
  calls is_RLock tr = 1 ∧ calls is_RUnlock tr = 1 ∧
  ∃ i k : nat,
    i < 6 ∧ 6 < k ∧
    tr !! i = Some (Ev Op.RLock ()) ∧ tr !! k = Some (Ev Op.RUnlock ()).
Proof.
  split; [reflexivity |]. split; [reflexivity |].
  apply (proj2 (proj2 (Clone_lock_balanced (Model.git Faults.notesFetchFails)
                         Sample.repo Sample.conf (Model.start true)))
           6 (Ev (Op.fetch "/tmp/flux-working" "/var/mirror"
                    "refs/notes/flux:refs/notes/flux")
                 (Some (ErrExec "fetch"))));
    reflexivity.
Defined.

(** [Clone] only reads from the mirror: no run of it commits, writes a
    note, pushes or moves a tag.  Nor does it retry: the initial clone is
    made once, at most two fetches are made and at most one directory
    removal. *)
Theorem Clone_never_writes_nor_retries {W : Type} (h : handler W) (r : Repo)
    (conf : Config) (w : W) :
  let tr := trace (run h (Clone r conf) w) in
  Forall (λ e, writes (ev_op e) = false) tr ∧
  calls is_workingClone tr = 1 ∧
  (calls is_fetch tr ≤ 2)%nat ∧
  (calls is_RemoveAll tr ≤ 1)%nat.
Proof.
  clone_cases h conf.
  all: split; [repeat constructor |]; split; [reflexivity |]; cbn; lia.
Qed.

(** The secrets are unsealed only when the configuration asks for it, and
    then as the last call of [Clone], after every other step has succeeded
    and the mirror's lock has been released. *)
Theorem Clone_unseal_is_last {W : Type} (h : handler W) (r : Repo)
    (conf : Config) (w : W) (d : string) (x : option error) :
  let tr := trace (run h (Clone r conf) w) in
  Ev (Op.secretUnseal d) x ∈ tr →
  GitSecret conf = true ∧
  ∃ (up : Remote) (real : string),
    tr = [Ev Op.Origin up;
          Ev (Op.workingClone (Branch conf)) (d, None);
          Ev (Op.config d (UserName conf) (UserEmail conf)) None;
          Ev (Op.getNotesRef d (NotesRef conf)) (real, None);
          Ev Op.RLock ();
          Ev (Op.fetch d (repo_dir r) tagsRefspec) None;
          Ev (Op.fetch d (repo_dir r) (real +:+ ":" +:+ real)) None;
          Ev Op.RUnlock ();
          Ev (Op.secretUnseal d) x].
Proof.
  clone_cases h conf; intros H; ev_mem H.
  all: split; [reflexivity |]; eexists _, _; reflexivity.
Qed.

Lemma Clone_unseal_is_last_witness :
  let tr :=
    trace (run (Model.git Model.noFaults) (Clone Sample.repo Sample.conf)
             (Model.start true)) in
  Ev (Op.secretUnseal "/tmp/flux-working") None ∈ tr ∧
  GitSecret Sample.conf = true ∧ length tr = 9.
Proof.
  assert (Ev (Op.secretUnseal "/tmp/flux-working") None
            ∈ trace (run (Model.git Model.noFaults)
                       (Clone Sample.repo Sample.conf) (Model.start true)))
    as H by (vm_compute; ev_find).
  split; [exact H |].
  split; [| reflexivity].
  exact (proj1 (Clone_unseal_is_last (Model.git Model.noFaults) Sample.repo
                  Sample.conf (Model.start true) _ _ H)).
Defined.

(** [Clone] stops at the first call that fails and returns the error of
    that call as it is: every call before it answered no error, and the
    only calls after it remove the directory and release the lock. *)
Theorem Clone_fails_fast {W : Type} (h : handler W) (r : Repo)
    (conf : Config) (w : W) (e : error) :
  let out := run h (Clone r conf) w in
  (result out).2 = Some e →
  ∃ (i : nat) (ev : event),
    trace out !! i = Some ev ∧
    answered_error ev = Some e ∧
    Forall (λ ev', answered_error ev' = None) (take i (trace out)) ∧
    Forall (λ ev', is_cleanup (ev_op ev') = true) (drop (S i) (trace out)).
Proof.
  clone_cases h conf; cbn [fst snd]; intros H; try discriminate H.
  all: simplify_eq H; intros; subst.
  all: at_some_index
         ltac:(solve [eexists; split; [reflexivity |];
                      split; [reflexivity |];
                      split; cbn; repeat constructor]).
Qed.

Lemma Clone_fails_fast_witness :
  let out :=
    run (Model.git Faults.configFails) (Clone Sample.repo Sample.conf)
      (Model.start true) in
  (result out).2 = Some (ErrExec "config") ∧
  ∃ (i : nat) (ev : event),
    trace out !! i = Some ev ∧
    answered_error ev = Some (ErrExec "config") ∧
    Forall (λ ev', answered_error ev' = None) (take i (trace out)) ∧
    Forall (λ ev', is_cleanup (ev_op ev') = true) (drop (S i) (trace out)).
Proof.
  split; [reflexivity |].
  apply (Clone_fails_fast (Model.git Faults.configFails) Sample.repo
           Sample.conf (Model.start true) (ErrExec "config")).
  reflexivity.
Defined.

(** ** CommitAndPush: further properties *)

(** Staging happens only on request and comes first: a call of [add] is
    made only when untracked files are to be added, it stages ["."] in the
    directory of the clone and is the first call of the run.  When it
    fails, its error is returned and nothing else is called, not even the
    change check. *)
Theorem CommitAndPush_staging {W : Type} (h : handler W) (c : Checkout)
    (ca : CommitAction) (note : option Note) (addUntracked : bool) (w : W)
    (d p : string) (x : option error) :
  let out := run h (CommitAndPush c ca note addUntracked) w in
  Ev (Op.add d p) x ∈ trace out →
  addUntracked = true ∧ d = Dir (export c) ∧ p = "." ∧
  head (trace out) = Some (Ev (Op.add d p) x) ∧
  match x with
  | Some e => result out = Some e ∧ trace out = [Ev (Op.add d p) x]
  | None => (1 < length (trace out))%nat
  end.
Proof.
  commit_and_push_cases h addUntracked note; intros H; ev_mem H.
  all: repeat split; cbn; lia.
Qed.

Lemma CommitAndPush_staging_witness :
  let out :=
    run (Model.git Faults.addFails)
      (CommitAndPush Sample.clone Sample.action None true) (Model.start true) in
  Ev (Op.add "/tmp/flux-working" ".") (Some (ErrExec "add")) ∈ trace out ∧
  result out = Some (ErrExec "add") ∧
  Model.history (final out) = [].
Proof.
  assert (Ev (Op.add "/tmp/flux-working" ".") (Some (ErrExec "add"))
            ∈ trace (run (Model.git Faults.addFails)
                       (CommitAndPush Sample.clone Sample.action None true)
                       (Model.start true))) as H
    by (vm_compute; ev_find).
  split; [exact H |].
  destruct (CommitAndPush_staging (Model.git Faults.addFails) Sample.clone
              Sample.action None true (Model.start true) _ _ _ H)
    as (_ & _ & _ & _ & Hres & _).
  split; [exact Hres | reflexivity].
Defined.

(** A commit that fails ends the transaction: its error is returned as it
    is, the commit is the last call of the run, and neither the revision
    is resolved, nor a note written, nor a ref looked up or pushed. *)
Theorem CommitAndPush_commit_failure {W : Type} (h : handler W)
    (c : Checkout) (ca : CommitAction) (note : option Note)
    (addUntracked : bool) (w : W) (d : string) (a : CommitAction)
    (e : error) :
  let out := run h (CommitAndPush c ca note addUntracked) w in
  Ev (Op.commit d a) (Some e) ∈ trace out →
  result out = Some e ∧
  last (trace out) = Some (Ev (Op.commit d a) (Some e)) ∧
  Forall (λ ev, follows_commit (ev_op ev) = false) (trace out).
Proof.
  commit_and_push_cases h addUntracked note; intros H; ev_mem H.
  all: repeat split; repeat constructor.
Qed.

Lemma CommitAndPush_commit_failure_witness :
  let out :=
    run (Model.git Faults.commitFails)
      (CommitAndPush Sample.clone Sample.signedAction (Some Sample.payload)
         false)
      (Model.start true) in
  let a := mkCommitAction "Alice" "Release 1.2 [ci skip]" "KEY1" in
  Ev (Op.commit "/tmp/flux-working" a) (Some (ErrExec "commit")) ∈ trace out ∧
  result out = Some (ErrExec "commit") ∧
  Model.pushed (final out) = [].
Proof.
  assert (Ev (Op.commit "/tmp/flux-working"
                (mkCommitAction "Alice" "Release 1.2 [ci skip]" "KEY1"))
             (Some (ErrExec "commit"))
            ∈ trace (run (Model.git Faults.commitFails)
                       (CommitAndPush Sample.clone Sample.signedAction
                          (Some Sample.payload) false)
                       (Model.start true))) as H
    by (vm_compute; ev_find).
  split; [exact H |].
  split; [| reflexivity].
  exact (proj1 (CommitAndPush_commit_failure (Model.git Faults.commitFails)
                  Sample.clone Sample.signedAction (Some Sample.payload) false
                  (Model.start true) _ _ _ H)).
Defined.

(** When the revision of the new commit cannot be resolved, the error of
    the lookup is returned: no note is written and nothing is pushed,
    while the commit made just before stays. *)
Theorem CommitAndPush_revision_failure {W : Type} (h : handler W)
    (c : Checkout) (ca : CommitAction) (note : option Note)
    (addUntracked : bool) (w : W) (d ref rev : string) (e : error) :
  let out := run h (CommitAndPush c ca note addUntracked) w in
  Ev (Op.refRevision d ref) (rev, Some e) ∈ trace out →
  result out = Some e ∧
  ref = "HEAD" ∧ is_Some note ∧
  (∃ a pre,
      trace out
      = (pre ++ [Ev (Op.commit (Dir (export c)) a) None;
                 Ev (Op.refRevision d ref) (rev, Some e)])%list) ∧
  calls is_addNote (trace out) = 0 ∧ calls is_push (trace out) = 0.
Proof.
  commit_and_push_cases h addUntracked note; intros H; ev_mem H.
  all: split; [reflexivity |]; split; [reflexivity |]; split; [eauto |].
  all: split; [eexists _, _; ev_split | split; reflexivity].
Qed.

Lemma CommitAndPush_revision_failure_witness :
  let out :=
    run (Model.git Faults.refRevisionFails)
      (CommitAndPush Sample.clone Sample.action (Some Sample.payload) false)
      (Model.start true) in
  Ev (Op.refRevision "/tmp/flux-working" "HEAD") ("", Some (ErrExec "rev-parse"))
    ∈ trace out ∧
  result out = Some (ErrExec "rev-parse") ∧
  length (Model.history (final out)) = 1 ∧ Model.notes (final out) = ∅.
Proof.
  assert (Ev (Op.refRevision "/tmp/flux-working" "HEAD")
             ("", Some (ErrExec "rev-parse"))
            ∈ trace (run (Model.git Faults.refRevisionFails)
                       (CommitAndPush Sample.clone Sample.action
                          (Some Sample.payload) false)
                       (Model.start true))) as H
    by (vm_compute; ev_find).
  split; [exact H |].
  split; [| split; reflexivity].
  exact (proj1 (CommitAndPush_revision_failure
                  (Model.git Faults.refRevisionFails) Sample.clone
                  Sample.action (Some Sample.payload) false (Model.start true)
                  _ _ _ _ H)).
Defined.

(** When writing the note fails, the error of the write is returned and
    nothing is pushed; the commit is not undone.  The write was for the
    note given, on the revision that [HEAD] had just resolved to, under the
    configured name of the notes ref. *)
Theorem CommitAndPush_note_failure {W : Type} (h : handler W)
    (c : Checkout) (ca : CommitAction) (note : option Note)
    (addUntracked : bool) (w : W) (d rev ref : string) (n : Note)
    (e : error) :
  let out := run h (CommitAndPush c ca note addUntracked) w in
  Ev (Op.addNote d rev ref n) (Some e) ∈ trace out →
  result out = Some e ∧
  note = Some n ∧ ref = NotesRef (config c) ∧
  (∃ a pre,
      trace out
      = (pre ++ [Ev (Op.commit (Dir (export c)) a) None;
                 Ev (Op.refRevision (Dir (export c)) "HEAD") (rev, None);
                 Ev (Op.addNote d rev ref n) (Some e)])%list) ∧
  calls is_refExists (trace out) = 0 ∧ calls is_push (trace out) = 0.
Proof.
  commit_and_push_cases h addUntracked note; intros H; ev_mem H.
  all: split; [reflexivity |]; split; [reflexivity |]; split; [reflexivity |].
  all: split; [eexists _, _; ev_split | split; reflexivity].
Qed.

Lemma CommitAndPush_note_failure_witness :
  let out :=
    run (Model.git Faults.addNoteFails)
      (CommitAndPush Sample.clone Sample.action (Some Sample.payload) true)
      (Model.start true) in
  Ev (Op.addNote "/tmp/flux-working" "rev'" "flux" Sample.payload)
     (Some (ErrExec "notes")) ∈ trace out ∧
  result out = Some (ErrExec "notes") ∧
  length (Model.history (final out)) = 1 ∧ Model.pushed (final out) = [].
Proof.
  assert (Ev (Op.addNote "/tmp/flux-working" "rev'" "flux" Sample.payload)
             (Some (ErrExec "notes"))
            ∈ trace (run (Model.git Faults.addNoteFails)
                       (CommitAndPush Sample.clone Sample.action
                          (Some Sample.payload) true)
                       (Model.start true))) as H
    by (vm_compute; ev_find).
  split; [exact H |].
  split; [| split; reflexivity].
  exact (proj1 (CommitAndPush_note_failure (Model.git Faults.addNoteFails)
                  Sample.clone Sample.action (Some Sample.payload) true
                  (Model.start true) _ _ _ _ _ H)).
Defined.

(** An error of the existence check is dropped when the check also reports
    the notes ref as present: the branch and the notes ref are pushed, and
    the result of the transaction is that of the push alone. *)
Theorem CommitAndPush_refExists_error_dropped {W : Type} (h : handler W)
    (c : Checkout) (ca : CommitAction) (note : option Note)
    (addUntracked : bool) (w : W) (d ref : string) (e : error) :
  let out := run h (CommitAndPush c ca note addUntracked) w in
  Ev (Op.refExists d ref) (true, Some e) ∈ trace out →
  ∃ x : option error,
    last (trace out)
    = Some (Ev (Op.push (Dir (export c)) (URL (upstream c))
                  [Branch (config c); realNotesRef c]) x) ∧
    result out
    = match x with
      | Some e' => Some (PushError (URL (upstream c)) e')
      | None => None
      end.
Proof.
  commit_and_push_cases h addUntracked note; intros H; ev_mem H.
  all: eexists; split; reflexivity.
Qed.

Lemma CommitAndPush_refExists_error_dropped_witness :
  let out :=
    run Faults.gitNoisyRefExists
      (CommitAndPush Sample.clone Sample.action None false)
      (Model.start true) in
  Ev (Op.refExists "/tmp/flux-working" "refs/notes/flux")
     (true, Some (ErrExec "show-ref")) ∈ trace out ∧
  result out = None ∧
  Model.pushed (final out)
  = [("git@example.com:flux.git", ["master"; "refs/notes/flux"])].
Proof.
  assert (Ev (Op.refExists "/tmp/flux-working" "refs/notes/flux")
             (true, Some (ErrExec "show-ref"))
            ∈ trace (run Faults.gitNoisyRefExists
                       (CommitAndPush Sample.clone Sample.action None false)
                       (Model.start true))) as H
    by (vm_compute; ev_find).
  split; [exact H |].
  destruct (CommitAndPush_refExists_error_dropped Faults.gitNoisyRefExists
              Sample.clone Sample.action None false (Model.start true) _ _ _ H)
    as (x & _ & _).
  split; reflexivity.
Defined.

(** A transaction that succeeds went through every step, in this order:
    the staging if requested, a change check that found changes, the
    commit, with a note the lookup of [HEAD] and the note write on the
    revision found, the existence check of the cached notes ref, and a
    push that succeeded and is the last call of the run. *)
Theorem CommitAndPush_success {W : Type} (h : handler W) (c : Checkout)
    (ca : CommitAction) (note : option Note) (addUntracked : bool) (w : W) :
  let out := run h (CommitAndPush c ca note addUntracked) w in
  let d := Dir (export c) in
  result out = None →
  ∃ (a : CommitAction) (rev : string) (ok : bool) (err : option error),
    trace out
    = ((if addUntracked then [Ev (Op.add d ".") None] else [])
       ++ [Ev (Op.check d (Paths (config c)) addUntracked) true;
           Ev (Op.commit d a) None]
       ++ match note with
          | Some n => [Ev (Op.refRevision d "HEAD") (rev, None);
                       Ev (Op.addNote d rev (NotesRef (config c)) n) None]
          | None => []
          end
       ++ [Ev (Op.refExists d (realNotesRef c)) (ok, err);
           Ev (Op.push d (URL (upstream c))
                 (Branch (config c) :: if ok then [realNotesRef c] else []))
              None])%list.
Proof.
  commit_and_push_cases h addUntracked note; intros H; try discriminate H.
  all: first [ eexists _, "", true, _; reflexivity
             | eexists _, "", false, _; reflexivity
             | eexists _, _, true, _; reflexivity
             | eexists _, _, false, _; reflexivity ].
Qed.

Lemma CommitAndPush_success_witness :
  let out :=
    run (Model.git Model.noFaults)
      (CommitAndPush Sample.clone Sample.action (Some Sample.payload) true)
      (Model.start true) in
  result out = None ∧ length (trace out) = 7.
Proof.
  assert (result (run (Model.git Model.noFaults)
                    (CommitAndPush Sample.clone Sample.action
                       (Some Sample.payload) true)
                    (Model.start true)) = None) as H by reflexivity.
  split; [exact H |].
  destruct (CommitAndPush_success (Model.git Model.noFaults) Sample.clone
              Sample.action (Some Sample.payload) true (Model.start true) H)
    as (a & rev & ok & err & Htr).
  rewrite Htr. reflexivity.
Defined.

(** Where an error of [CommitAndPush] comes from.  The run stops at the
    call that decides it, which is the last one: the change check that
    found nothing, for the no-changes error; the push that failed, whose
    error is wrapped with the URL of the remote; or else the call that
    answered the very error returned.  Every call before it answered no
    error, the existence check apart. *)
Theorem CommitAndPush_fails_fast {W : Type} (h : handler W) (c : Checkout)
    (ca : CommitAction) (note : option Note) (addUntracked : bool) (w : W)
    (e : error) :
  let out := run h (CommitAndPush c ca note addUntracked) w in
  result out = Some e →
  ∃ (pre : list event) (ev : event),
    trace out = (pre ++ [ev])%list ∧
    Forall (λ ev', answered_error ev' = None ∨ is_refExists (ev_op ev') = true)
      pre ∧
    ((ev = Ev (Op.check (Dir (export c)) (Paths (config c)) addUntracked) false
      ∧ e = ErrNoChanges)
     ∨ (is_push (ev_op ev) = true ∧
        ∃ e', answered_error ev = Some e' ∧ e = PushError (URL (upstream c)) e')
     ∨ (is_push (ev_op ev) = false ∧ answered_error ev = Some e)).
Proof.
  commit_and_push_cases h addUntracked note; intros H; try discriminate H.
  all: simplify_eq H; intros; subst.
  all: eexists _, _; split; [ev_split |].
  all: split;
         [ repeat (constructor;
                   [first [left; reflexivity | right; reflexivity] |]);
           constructor |].
  all: first
         [ left; split; reflexivity
         | right; left; split; [reflexivity | eexists; split; reflexivity]
         | right; right; split; reflexivity ].
Qed.

Lemma CommitAndPush_fails_fast_witness :
  let out :=
    run (Model.git Sample.pushFails)
      (CommitAndPush Sample.clone Sample.action None false)
      (Model.start true) in
  result out
  = Some (PushError "git@example.com:flux.git" (ErrExec "rejected")) ∧
  ∃ (pre : list event) (ev : event),
    trace out = (pre ++ [ev])%list ∧
    Forall (λ ev', answered_error ev' = None ∨ is_refExists (ev_op ev') = true)
      pre.
Proof.
  assert (result (run (Model.git Sample.pushFails)
                    (CommitAndPush Sample.clone Sample.action None false)
                    (Model.start true))
          = Some (PushError "git@example.com:flux.git" (ErrExec "rejected")))
    as H by reflexivity.
  split; [exact H |].
  destruct (CommitAndPush_fails_fast (Model.git Sample.pushFails) Sample.clone
              Sample.action None false (Model.start true) _ H)
    as (pre & ev & Htr & Hpre & _).
  exists pre, ev. split; [exact Htr | exact Hpre].
Defined.

(** [CommitAndPush] never retries and never cleans up: in every run it
    commits at most once, writes at most one note and pushes at most once,
    it never removes a directory and never fetches, and it resolves [HEAD]
    and writes a note only when a note was given. *)
Theorem CommitAndPush_single_attempt {W : Type} (h : handler W)
    (c : Checkout) (ca : CommitAction) (note : option Note)
    (addUntracked : bool) (w : W) :
  let tr := trace (run h (CommitAndPush c ca note addUntracked) w) in
  (calls is_commit tr ≤ 1)%nat ∧
  (calls is_addNote tr ≤ 1)%nat ∧
  (calls is_push tr ≤ 1)%nat ∧
  calls is_RemoveAll tr = 0 ∧ calls is_fetch tr = 0 ∧
  (note = None → calls is_addNote tr = 0 ∧
                 Forall (λ ev, ∀ d ref, ev_op ev ≠ Op.refRevision d ref) tr).
Proof.
  commit_and_push_cases h addUntracked note.
  all: repeat split; cbn; try lia; try discriminate.
  all: repeat constructor; intros; discriminate.
Qed.

Lemma CommitAndPush_single_attempt_witness :
  let tr :=
    trace (run (Model.git Model.noFaults)
             (CommitAndPush Sample.clone Sample.action None true)
             (Model.start true)) in
  calls is_commit tr = 1 ∧ calls is_push tr = 1 ∧ calls is_addNote tr = 0.
Proof.
  split; [reflexivity |]. split; [reflexivity |].
  exact (proj1 (proj2 (proj2 (proj2 (proj2 (proj2
           (CommitAndPush_single_attempt (Model.git Model.noFaults)
              Sample.clone Sample.action None true (Model.start true))))))
           eq_refl)).
Defined.

(** ** ChangedFiles, and Clone followed by CommitAndPush *)

(** [ChangedFiles] asks once for the files changed since the reference
    under the configured paths.  On success it returns as many paths as it
    got files, each file joined onto the root of the clone, in the same
    order; on failure it returns the error with the list untouched. *)
Theorem ChangedFiles_joins_onto_root {W : Type} (h : handler W)
    (filepath_Join : string → string → string) (c : Checkout) (ref : string)
    (w : W) :
  let out := run h (ChangedFiles filepath_Join c ref) w in
  ∃ (files : list string) (err : option error),
    trace out
    = [Ev (Op.changed (Dir (export c)) ref (Paths (config c))) (files, err)] ∧
    result out
    = (match err with
       | None => filepath_Join (Dir (export c)) <$> files
       | Some _ => files
       end, err) ∧
    length (result out).1 = length files.
Proof.
  cbv zeta. unfold ChangedFiles. unfold_prog.
  destruct (h _ w) as [[files [e|]] w']; cbn.
  - exists files, (Some e). repeat split.
  - exists files, None. rewrite rangeAssign_whole by reflexivity.
    repeat split. cbn. apply length_fmap.
Qed.

(** A working clone that [Clone] returned pushes where it came from: every
    push of [CommitAndPush] on it runs in the directory that the initial
    clone made, goes to the URL of the mirror's origin, starts with the
    configured branch, and any further ref it carries is a notes ref that
    [Clone] fetched from the mirror. *)
Theorem Clone_then_CommitAndPush {W : Type} (h : handler W) (r : Repo)
    (conf : Config) (w w' : W) (c : Checkout) (ca : CommitAction)
    (note : option Note) (addUntracked : bool) (d u : string)
    (rs : list string) (x : option error) :
  let cloned := run h (Clone r conf) w in
  (result cloned).1 = Some c →
  Ev (Op.push d u rs) x ∈ trace (run h (CommitAndPush c ca note addUntracked) w') →
  Ev (Op.workingClone (Branch conf)) (d, None) ∈ trace cloned ∧
  (∃ up : Remote, Ev Op.Origin up ∈ trace cloned ∧ u = URL up) ∧
  head rs = Some (Branch conf) ∧
  ∀ ref : string,
    ref ∈ tail rs →
    Ev (Op.fetch d (repo_dir r) (ref +:+ ":" +:+ ref)) None ∈ trace cloned.
Proof.
  clone_cases h conf; cbn [fst snd]; intros Hc; try discriminate Hc.
  all: apply (inj Some) in Hc; subst c.
  all: cbn [Dir dir export config upstream realNotesRef].
  all: commit_and_push_cases h addUntracked note; intros H; ev_mem H.
  all: split; [ev_find |]; split; [eexists; split; [ev_find | reflexivity] |].
  all: split; [reflexivity |]; intros ref Hin; cbn in Hin.
  all: first [ apply elem_of_nil in Hin; destruct Hin
             | apply list_elem_of_singleton in Hin; subst ref; ev_find ].
Qed.

Lemma Clone_then_CommitAndPush_witness :
  let cloned :=
    run (Model.git Model.noFaults) (Clone Sample.repo Sample.conf)
      (Model.start true) in
  let out :=
    run (Model.git Model.noFaults)
      (CommitAndPush Sample.clone Sample.action (Some Sample.payload) false)
      (final cloned) in
  (result cloned).1 = Some Sample.clone ∧
  Ev (Op.push "/tmp/flux-working" "git@example.com:flux.git"
        ["master"; "refs/notes/flux"]) None ∈ trace out ∧
  Ev (Op.fetch "/tmp/flux-working" "/var/mirror"
        ("refs/notes/flux" +:+ ":" +:+ "refs/notes/flux")) None
    ∈ trace cloned.
Proof.
  assert ((result (run (Model.git Model.noFaults)
                     (Clone Sample.repo Sample.conf) (Model.start true))).1
          = Some Sample.clone) as Hc by reflexivity.
  assert (Ev (Op.push "/tmp/flux-working" "git@example.com:flux.git"
                ["master"; "refs/notes/flux"]) None
            ∈ trace (run (Model.git Model.noFaults)
                       (CommitAndPush Sample.clone Sample.action
                          (Some Sample.payload) false)
                       (final (run (Model.git Model.noFaults)
                                 (Clone Sample.repo Sample.conf)
                                 (Model.start true))))) as Hp
    by (vm_compute; ev_find).
  split; [exact Hc |]. split; [exact Hp |].
  destruct (Clone_then_CommitAndPush (Model.git Model.noFaults) Sample.repo
              Sample.conf (Model.start true) _ Sample.clone Sample.action
              (Some Sample.payload) false _ _ _ _ Hc Hp)
    as (_ & _ & _ & Hfetched).
  apply Hfetched. cbn. apply list_elem_of_here.
Defined.
